(** * A task-list front end: API client, list controller and row view

    The development embeds the three JavaScript units of the repository,

    - [src/frontend/src/api/tasks.js]  (the four [fetch] wrappers),
    - [src/frontend/src/App.jsx]       (the root component [App]),
    - the component [TaskItem]         (second half of [App.jsx]),

    as programs of a small inductive monad of asynchronous actions, gives
    them an event-loop semantics (user events and arrivals of HTTP
    responses, in any interleaving), and proves the properties the
    specification states about them. *)

From Stdlib Require Import String Ascii List NArith ZArith Bool Lia.
From Stdlib Require Import DecimalString.
Import ListNotations.

Set Implicit Arguments.
Set Warnings "-register-all".

(** ** JavaScript data *)

(** A JavaScript string is a sequence of UTF-16 code units. *)
Definition jsstring := list N.

(** An ASCII literal as a JavaScript string. *)
Definition lit (s : string) : jsstring :=
  map N_of_ascii (list_ascii_of_string s).

(** The values that reach the client: what [JSON.parse] can produce, plus
    [undefined] (the result of reading an absent property).  Numbers are
    the integral ones; [VNum n] is the number the numeral [n] denotes. *)
Inductive value : Type :=
| VUndefined
| VNull
| VBool (b : bool)
| VNum (n : Z)
| VStr (s : jsstring)
| VArr (items : list value)
| VObj (fields : list (jsstring * value)).

Inductive error : Type :=
| TypeError
| SyntaxError.

(** Results of synchronous evaluation that may throw. *)
Inductive result (A : Type) : Type :=
| Ok (a : A)
| Thrown (e : error).
Arguments Thrown {A} e.

(** ToBoolean. *)
Definition truthy (v : value) : bool :=
  match v with
  | VUndefined | VNull => false
  | VBool b => b
  | VNum n => negb (n =? 0)%Z
  | VStr s => match s with [] => false | _ :: _ => true end
  | VArr _ | VObj _ => true
  end.

Definition jsstring_eqb (a b : jsstring) : bool :=
  if list_eq_dec N.eq_dec a b then true else false.

Fixpoint lookup (key : jsstring) (fields : list (jsstring * value)) : value :=
  match fields with
  | [] => VUndefined
  | (k, v) :: rest => if jsstring_eqb k key then v else lookup key rest
  end.

(** Property read [o.key] for the three keys the client reads ([id],
    [title], [completed]): a [TypeError] on [null] and [undefined], the
    field on an object, [undefined] on everything else. *)
Definition get (o : value) (key : jsstring) : result value :=
  match o with
  | VUndefined | VNull => Thrown TypeError
  | VObj fields => Ok (lookup key fields)
  | _ => Ok VUndefined
  end.

(** *** Numbers as text

    [Number::toString] on the number that an integer numeral of a JSON
    text denotes, which is the double nearest to the integer. *)

Definition decimal (n : Z) : jsstring :=
  lit (NilZero.string_of_int (Z.to_int n)).

(** The double nearest to the positive integer [a] (ties to the even
    mantissa), or [None] when that is beyond the largest double. *)
Definition nearest_double (a : Z) : option Z :=
  let bits := (Z.log2 a + 1)%Z in
  if (bits <=? 53)%Z then Some a else
  let sh := (bits - 53)%Z in
  let m := Z.shiftr a sh in
  let rest := (a - Z.shiftl m sh)%Z in
  let half := Z.shiftl 1 (sh - 1) in
  let m' := if (half <? rest)%Z || ((rest =? half)%Z && Z.odd m)
            then (m + 1)%Z else m in
  let d := Z.shiftl m' sh in
  if (2 ^ 1024 <=? d)%Z then None else Some d.

(** Whether the integer [c] is read back as the double [d] (at least
    2^53): it lies within half a gap of [d], the ends included when the
    mantissa of [d] is even.  Distances are taken four times over, since
    half the gap below a power of two is a quarter of the gap above. *)
Definition reads_back (d c : Z) : bool :=
  let e := (Z.log2 d - 52)%Z in
  let mant := Z.shiftr d e in
  let up4 := Z.shiftl 1 (e + 1) in
  let down4 := if (mant =? 2 ^ 52)%Z then Z.shiftl 1 e else up4 in
  let dist4 := (4 * Z.abs (c - d))%Z in
  let lim := if (d <=? c)%Z then up4 else down4 in
  (dist4 <? lim)%Z || (Z.even mant && (dist4 =? lim)%Z).

(** The integer with the fewest significant digits that is read back as
    [d], the nearest to [d] among those: multiples of 10^j are tried from
    the largest [j] down. *)
Fixpoint shortest (d : Z) (j : nat) : Z :=
  match j with
  | O => d
  | S j' =>
      let q := (10 ^ Z.of_nat j)%Z in
      let lo := (d / q * q)%Z in
      let hi := (lo + q)%Z in
      let lo_ok := (0 <? lo)%Z && reads_back d lo in
      let hi_ok := reads_back d hi in
      if lo_ok && hi_ok then (if (d - lo <=? hi - d)%Z then lo else hi)
      else if lo_ok then lo
      else if hi_ok then hi
      else shortest d j'
  end.

Fixpoint strip_zeros (s : jsstring) : jsstring :=
  match s with
  | 48%N :: rest => strip_zeros rest
  | _ => s
  end.

(** Up to 21 digits are written out; beyond that the exponent form is
    used ([1e+21], [1.1805916207174113e+21]). *)
Definition Number_toString (n : Z) : jsstring :=
  if (n =? 0)%Z then lit "0" else
  let sign := if (n <? 0)%Z then lit "-" else [] in
  match nearest_double (Z.abs n) with
  | None => sign ++ lit "Infinity"
  | Some d =>
      let c := if (d <? 2 ^ 53)%Z then d
               else shortest d (Z.to_nat (Z.log2 d / 3 + 1)) in
      let ds := decimal c in
      let len := length ds in
      if (len <=? 21)%nat then sign ++ ds
      else
        match rev (strip_zeros (rev ds)) with
        | [] => sign ++ ds
        | first :: rest =>
            sign ++ first ::
            (match rest with [] => [] | _ => lit "." ++ rest end) ++
            lit "e+" ++ decimal (Z.of_nat (len - 1))
        end
  end.

(** ToString, as a template literal applies it to an interpolated value.
    The function is total; in JavaScript the conversion of an object that
    has a field named [toString] throws instead (see [stringifies]). *)
Definition comma : jsstring := lit ",".

Fixpoint ToString (v : value) : jsstring :=
  match v with
  | VUndefined => lit "undefined"
  | VNull => lit "null"
  | VBool true => lit "true"
  | VBool false => lit "false"
  | VNum n => Number_toString n
  | VStr s => s
  | VArr items =>
      let item (x : value) :=
        match x with VUndefined | VNull => [] | _ => ToString x end in
      (fix join (l : list value) : jsstring :=
         match l with
         | [] => []
         | [x] => item x
         | x :: rest => item x ++ comma ++ join rest
         end) items
  | VObj _ => lit "[object Object]"
  end.

(** The values whose conversion to a string does not throw: all but the
    objects that have a field named [toString] (a JSON value is never
    callable, and [valueOf] then gives back the object), and the arrays
    that hold such an object. *)
Fixpoint stringifies (v : value) : bool :=
  match v with
  | VArr items => forallb stringifies items
  | VObj fields =>
      negb (existsb (fun kv => jsstring_eqb (fst kv) (lit "toString")) fields)
  | _ => true
  end.

(** [String.prototype.trim]: strips the code units that are WhiteSpace or
    LineTerminator from both ends. *)
Definition is_space (c : N) : bool :=
  existsb (N.eqb c)
    [0x09; 0x0A; 0x0B; 0x0C; 0x0D; 0x20; 0xA0; 0x1680;
     0x2000; 0x2001; 0x2002; 0x2003; 0x2004; 0x2005; 0x2006; 0x2007;
     0x2008; 0x2009; 0x200A; 0x2028; 0x2029; 0x202F; 0x205F; 0x3000;
     0xFEFF]%N.

Fixpoint trimStart (s : jsstring) : jsstring :=
  match s with
  | [] => []
  | c :: rest => if is_space c then trimStart rest else s
  end.

Definition trimEnd (s : jsstring) : jsstring := rev (trimStart (rev s)).

Definition trim (s : jsstring) : jsstring := trimEnd (trimStart s).

(** A draft is blank when it is empty or made of white space only. *)
Definition blank (s : jsstring) : bool := forallb is_space s.

(** ** HTTP *)

Inductive http_method : Type := GET | POST | PUT | DELETE.

(** What travels in a body.  The client writes bodies with
    [JSON.stringify] and reads them with [response.json()] only, so a body
    is represented by the JSON value its text denotes, or as text that is
    not JSON. *)
Inductive payload : Type :=
| Json (v : value)
| NotJson (text : jsstring).

Record request : Type := {
  url : jsstring;
  method : http_method;
  headers : list (jsstring * jsstring);
  req_body : option payload
}.

Record response : Type := {
  status : Z;
  body : payload
}.

(** How a [fetch] settles: the promise rejects on a network error and
    fulfils with the response otherwise, whatever its status. *)
Inductive fetch_result : Type :=
| NetworkError
| Response (r : response).

(** ** Asynchronous programs

    The bodies of the [async] functions of the client, as trees of the
    actions they perform.  [Fetch] is [await fetch(..)]: the program is
    suspended until the request settles.  [Spawn p k] is a call [p()] of an
    async function that is not awaited: [p] runs up to its first
    suspension, then [k] goes on, and [p]'s outcome is observed by
    nobody. *)
Inductive prog (A : Type) : Type :=
| Ret (a : A)
| Throw (e : error)
| Fetch (rq : request) (k : response -> prog A)
| SetTasks (data : value) (k : prog A)
| SetNewTask (s : jsstring) (k : prog A)
| PreventDefault (k : prog A)
| Spawn (p : prog unit) (k : prog A).
Arguments Throw {A} e.

Fixpoint bind {A B : Type} (p : prog A) (f : A -> prog B) : prog B :=
  match p with
  | Ret a => f a
  | Throw e => Throw e
  | Fetch rq k => Fetch rq (fun r => bind (k r) f)
  | SetTasks data k => SetTasks data (bind k f)
  | SetNewTask s k => SetNewTask s (bind k f)
  | PreventDefault k => PreventDefault (bind k f)
  | Spawn q k => Spawn q (bind k f)
  end.

Declare Scope prog_scope.
Delimit Scope prog_scope with prog.
Notation "x <- p ;; q" := (bind p (fun x => q))
  (at level 61, p at next level, right associativity) : prog_scope.
Notation "p ;; q" := (bind p (fun _ => q))
  (at level 61, right associativity) : prog_scope.
Open Scope prog_scope.

Definition fetch (u : jsstring) (m : http_method)
    (h : list (jsstring * jsstring)) (b : option payload) : prog response :=
  Fetch {| url := u; method := m; headers := h; req_body := b |}
        (fun r => Ret r).

(** [response.json()]: the parsed body, or a rejection with a
    [SyntaxError] when the body is not JSON. *)
Definition json (r : response) : prog value :=
  match body r with
  | Json v => Ret v
  | NotJson _ => Throw SyntaxError
  end.

Definition setTasks (data : value) : prog unit := SetTasks data (Ret tt).
Definition setNewTask (s : jsstring) : prog unit := SetNewTask s (Ret tt).
Definition preventDefault : prog unit := PreventDefault (Ret tt).
Definition spawn (p : prog unit) : prog unit := Spawn p (Ret tt).

(** ** The API client ([api/tasks.js]) *)

Definition API_URL : jsstring := lit "http://localhost:3001/api".

Definition getTasks : prog value :=
  response <- fetch (API_URL ++ lit "/tasks") GET [] None ;;
  json response.

Definition createTask (title : jsstring) : prog value :=
  response <- fetch (API_URL ++ lit "/tasks") POST
                [(lit "Content-Type", lit "application/json")]
                (Some (Json (VObj [(lit "title", VStr title)]))) ;;
  json response.

Definition toggleTask (id : value) : prog value :=
  response <- fetch (API_URL ++ lit "/tasks/" ++ ToString id) PUT [] None ;;
  json response.

Definition deleteTask (id : value) : prog value :=
  fetch (API_URL ++ lit "/tasks/" ++ ToString id) DELETE [] None ;;
  Ret VUndefined.

(** ** The list controller ([App] in [App.jsx])

    The handlers of one render close over that render's [newTask]; it is
    their parameter here. *)

Definition fetchTasks : prog unit :=
  data <- getTasks ;;
  setTasks data.

Definition handleAddTask (newTask : jsstring) : prog unit :=
  preventDefault ;;
  if negb (truthy (VStr (trim newTask))) then Ret tt else
  createTask newTask ;;
  setNewTask [] ;;
  spawn fetchTasks.

Definition handleToggleTask (id : value) : prog unit :=
  toggleTask id ;;
  spawn fetchTasks.

Definition handleDeleteTask (id : value) : prog unit :=
  deleteTask id ;;
  spawn fetchTasks.

(** The effect run on mount. *)
Definition onMount : prog unit := spawn fetchTasks.

(** The [onChange] of the input field, on the text [e.target.value]. *)
Definition handleChange (text : jsstring) : prog unit := setNewTask text.

(** ** The row view ([TaskItem]) and the rendering of [App] *)

Definition mapM {A B : Type} (f : A -> result B) : list A -> result (list B) :=
  fix go (l : list A) : result (list B) :=
    match l with
    | [] => Ok []
    | a :: rest =>
        match f a, go rest with
        | Ok b, Ok bs => Ok (b :: bs)
        | Thrown e, _ => Thrown e
        | _, Thrown e => Thrown e
        end
    end.

(** What a row shows and what its two controls do when activated. *)
Record row : Type := {
  checkbox_checked : value;
  checkbox_onChange : prog unit;
  span_className : jsstring;
  span_text : value;
  button_onClick : prog unit
}.

Definition TaskItem (task : value) (onToggle onDelete : value -> prog unit)
  : result row :=
  match get task (lit "completed"), get task (lit "title"),
        get task (lit "id") with
  | Ok completed, Ok title, Ok id =>
      Ok {| checkbox_checked := completed;
            checkbox_onChange := onToggle id;
            span_className :=
              if truthy completed then lit "line-through text-gray-500"
              else [];
            span_text := title;
            button_onClick := onDelete id |}
  | Thrown e, _, _ | _, Thrown e, _ | _, _, Thrown e => Thrown e
  end.

Record view : Type := {
  form_onSubmit : prog unit;
  input_value : jsstring;
  input_onChange : jsstring -> prog unit;
  rows : list row
}.

(** The elements the component functions compute: those of [App] and, for
    each task, what [TaskItem] returns for it.  [tasks.map(..)] exists on
    arrays only.  What React does with the elements afterwards (keys,
    validation of children, the document) is not part of this. *)
Definition App (tasks : value) (newTask : jsstring) : result view :=
  match tasks with
  | VArr items =>
      match mapM (fun task =>
                    TaskItem task handleToggleTask handleDeleteTask) items with
      | Ok rs => Ok {| form_onSubmit := handleAddTask newTask;
                       input_value := newTask;
                       input_onChange := handleChange;
                       rows := rs |}
      | Thrown e => Thrown e
      end
  | _ => Thrown TypeError
  end.

(** ** The event loop *)

(** What an observer of the page can see happen. *)
Inductive event : Type :=
| Requested (rq : request)
| DefaultPrevented
| TasksSet (data : value)
| NewTaskSet (s : jsstring)
| Unhandled (e : error).

(** The two pieces of component state, the requests in flight (each with
    the program that waits for it), and the history of events. *)
Record config : Type := {
  tasks : value;
  newTask : jsstring;
  pending : list (request * (response -> prog unit));
  log : list event
}.

Definition init : config :=
  {| tasks := VArr []; newTask := []; pending := []; log := [] |}.

Definition emit (ev : event) (c : config) : config :=
  {| tasks := tasks c; newTask := newTask c; pending := pending c;
     log := log c ++ [ev] |}.

(** Runs a program until it ends or suspends.  A rejection is unhandled:
    no caller of a handler, and no [Spawn], looks at the outcome. *)
Fixpoint sync (p : prog unit) (c : config) : config :=
  match p with
  | Ret _ => c
  | Throw e => emit (Unhandled e) c
  | Fetch rq k =>
      emit (Requested rq)
        {| tasks := tasks c; newTask := newTask c;
           pending := pending c ++ [(rq, k)]; log := log c |}
  | SetTasks data k =>
      sync k (emit (TasksSet data)
                {| tasks := data; newTask := newTask c;
                   pending := pending c; log := log c |})
  | SetNewTask s k =>
      sync k (emit (NewTaskSet s)
                {| tasks := tasks c; newTask := s;
                   pending := pending c; log := log c |})
  | PreventDefault k => sync k (emit DefaultPrevented c)
  | Spawn q k => sync k (sync q c)
  end.

Definition remove_nth {A : Type} (i : nat) (l : list A) : list A :=
  firstn i l ++ skipn (S i) l.

(** What [await fetch(..)] makes of the settled request: the awaiting
    program goes on with the response, or throws on a network error. *)
Definition resume {A : Type} (p : prog A) (res : fetch_result) : prog A :=
  match p with
  | Fetch _ k =>
      match res with
      | NetworkError => Throw TypeError
      | Response r => k r
      end
  | _ => p
  end.

(** The [i]-th request in flight settles with [res]; the program that
    waits for it resumes. *)
Definition settle (i : nat) (res : fetch_result) (c : config) : config :=
  match nth_error (pending c) i with
  | None => c
  | Some (rq, k) =>
      sync (resume (Fetch rq k) res)
           {| tasks := tasks c; newTask := newTask c;
              pending := remove_nth i (pending c); log := log c |}
  end.

Inductive input : Type :=
| Mount
| Change (text : jsstring)
| Submit
| Toggle (id : value)
| Delete (id : value)
| Arrive (i : nat) (res : fetch_result).

Definition step (c : config) (i : input) : config :=
  match i with
  | Mount => sync onMount c
  | Change text => sync (handleChange text) c
  | Submit => sync (handleAddTask (newTask c)) c
  | Toggle id => sync (handleToggleTask id) c
  | Delete id => sync (handleDeleteTask id) c
  | Arrive i res => settle i res c
  end.

Definition steps (c : config) (ins : list input) : config :=
  fold_left step ins c.

(** The requests issued so far, oldest first. *)
Definition requests (c : config) : list request :=
  flat_map (fun ev => match ev with Requested rq => [rq] | _ => [] end)
           (log c).

Definition rejections (c : config) : list error :=
  flat_map (fun ev => match ev with Unhandled e => [e] | _ => [] end)
           (log c).


(** The requests in flight, oldest first. *)
Definition in_flight (c : config) : list request := map fst (pending c).

(** The four requests of the REST interface, as the client builds them. *)
Definition GET_tasks : request :=
  {| url := API_URL ++ lit "/tasks"; method := GET;
     headers := []; req_body := None |}.

Definition POST_tasks (title : jsstring) : request :=
  {| url := API_URL ++ lit "/tasks"; method := POST;
     headers := [(lit "Content-Type", lit "application/json")];
     req_body := Some (Json (VObj [(lit "title", VStr title)])) |}.

Definition PUT_task (id : value) : request :=
  {| url := API_URL ++ lit "/tasks/" ++ ToString id; method := PUT;
     headers := []; req_body := None |}.

Definition DELETE_task (id : value) : request :=
  {| url := API_URL ++ lit "/tasks/" ++ ToString id; method := DELETE;
     headers := []; req_body := None |}.

(** ** Vocabulary of the statements *)

(** What the handler of the form does after [e.preventDefault()] when the
    draft is not blank. *)
Definition add_rest (newTask : jsstring) : prog unit :=
  createTask newTask ;;
  setNewTask [] ;;
  spawn fetchTasks.

(** The program a suspended [p] resumes with. *)
Definition continuation {A : Type} (p : prog A) : response -> prog A :=
  fun r => resume p (Response r).

(** The API function an operation calls, for the draft [newTask] of the
    render it happens in. *)
Definition api_call (newTask : jsstring) (op : input) : option (prog value) :=
  match op with
  | Submit =>
      if negb (truthy (VStr (trim newTask))) then None
      else Some (createTask newTask)
  | Toggle id => Some (toggleTask id)
  | Delete id => Some (deleteTask id)
  | _ => None
  end.

(** The request a program starts with. *)
Definition first_request {A : Type} (p : prog A) : option request :=
  match p with
  | Fetch rq _ => Some rq
  | _ => None
  end.

(** The values [setTasks] was called with, oldest first. *)
Definition tasks_writes (c : config) : list value :=
  flat_map (fun ev => match ev with TasksSet data => [data] | _ => [] end)
           (log c).

(** The values [setNewTask] was called with, oldest first. *)
Definition draft_writes (c : config) : list jsstring :=
  flat_map (fun ev => match ev with NewTaskSet s => [s] | _ => [] end)
           (log c).

(** ** The programs that wait

    Only four programs ever wait for a response. *)
Inductive waiter : request * (response -> prog unit) -> Prop :=
| waits_refresh : waiter (GET_tasks, continuation fetchTasks)
| waits_create (d : jsstring) :
    waiter (POST_tasks d, continuation (add_rest d))
| waits_toggle (id : value) :
    waiter (PUT_task id, continuation (handleToggleTask id))
| waits_delete (id : value) :
    waiter (DELETE_task id, continuation (handleDeleteTask id)).

Definition well_formed (c : config) : Prop := Forall waiter (pending c).

(** ** Sample data *)

Definition task (id : Z) (title : string) (completed : bool) : value :=
  VObj [(lit "id", VNum id); (lit "title", VStr (lit title));
        (lit "completed", VBool completed)].

Definition ok200 (v : value) : fetch_result :=
  Response {| status := 200; body := Json v |}.

Definition strike : jsstring := lit "line-through text-gray-500".

(** ** Vocabulary of the further properties *)

(** The events that are actions of the user or the mount, as opposed to
    typing and to arrivals from the network. *)
Definition is_action (i : input) : bool :=
  match i with
  | Mount | Submit | Toggle _ | Delete _ => true
  | Change _ | Arrive _ _ => false
  end.

Definition actions (ins : list input) : nat :=
  length (filter is_action ins).

(** The requests in flight that are not refreshes. *)
Definition is_mutation (w : request * (response -> prog unit)) : bool :=
  match method (fst w) with
  | GET => false
  | _ => true
  end.

Definition mutations_waiting (c : config) : nat :=
  length (filter is_mutation (pending c)).

(** The requests the client can be seen to send. *)
Definition request_shape (rq : request) : Prop :=
  rq = GET_tasks \/
  (exists d : jsstring, rq = POST_tasks d /\ blank d = false) \/
  (exists id : value, rq = PUT_task id) \/
  (exists id : value, rq = DELETE_task id).

(** * Properties *)

(** ** [trim] and blank drafts *)

Lemma trimStart_nil (s : jsstring) : trimStart s = [] <-> blank s = true.
Proof.
  induction s as [|c s IH]; simpl.
  - tauto.
  - destruct (is_space c); simpl; [exact IH | split; discriminate].
Qed.

Lemma blank_trimStart (s : jsstring) :
  blank (trimStart s) = true <-> blank s = true.
Proof.
  induction s as [|c s IH]; simpl.
  - tauto.
  - destruct (is_space c) eqn:E; simpl.
    + exact IH.
    + rewrite E. simpl. tauto.
Qed.

Lemma blank_rev (s : jsstring) : blank (rev s) = blank s.
Proof.
  unfold blank. induction s as [|c s IH]; simpl.
  - reflexivity.
  - rewrite forallb_app, IH. simpl. rewrite andb_true_r. apply andb_comm.
Qed.

Lemma trim_nil_iff_blank (s : jsstring) : trim s = [] <-> blank s = true.
Proof.
  unfold trim, trimEnd.
  rewrite <- blank_trimStart, <- blank_rev, <- trimStart_nil.
  split; intro H.
  - apply (f_equal (@rev N)) in H. rewrite rev_involutive in H. exact H.
  - rewrite H. reflexivity.
Qed.

(** ** One step of each kind *)

Lemma remove_nth_last {A : Type} (l : list A) (x : A) :
  remove_nth (length l) (l ++ [x]) = l.
Proof.
  unfold remove_nth. induction l as [|a l IH]; simpl.
  - reflexivity.
  - simpl in IH. now rewrite IH.
Qed.

Lemma nth_error_last {A : Type} (l : list A) (x : A) :
  nth_error (l ++ [x]) (length l) = Some x.
Proof.
  rewrite nth_error_app2 by lia. now rewrite Nat.sub_diag.
Qed.

(** Settling the youngest request in flight. *)
Lemma settle_youngest (t : value) (d : jsstring)
    (l : list (request * (response -> prog unit))) (h : list event)
    (rq : request) (k : response -> prog unit) (res : fetch_result) :
  settle (length l) res
    {| tasks := t; newTask := d; pending := l ++ [(rq, k)]; log := h |} =
  sync (resume (Fetch rq k) res)
    {| tasks := t; newTask := d; pending := l; log := h |}.
Proof.
  unfold settle. simpl pending.
  now rewrite nth_error_last, remove_nth_last.
Qed.

Lemma Submit_blank (c : config) :
  trim (newTask c) = [] -> step c Submit = emit DefaultPrevented c.
Proof.
  intro H. unfold step, handleAddTask. simpl. now rewrite H.
Qed.

Lemma Submit_not_blank (c : config) :
  trim (newTask c) <> [] ->
  step c Submit =
  {| tasks := tasks c; newTask := newTask c;
     pending := pending c ++
                [(POST_tasks (newTask c), continuation (add_rest (newTask c)))];
     log := log c ++ [DefaultPrevented; Requested (POST_tasks (newTask c))] |}.
Proof.
  intro H. unfold step, handleAddTask. simpl.
  destruct (trim (newTask c)) as [|a s]; [congruence|]. simpl.
  unfold emit. simpl. now rewrite <- app_assoc.
Qed.

Lemma Toggle_step (c : config) (id : value) :
  step c (Toggle id) =
  {| tasks := tasks c; newTask := newTask c;
     pending := pending c ++
                [(PUT_task id, continuation (handleToggleTask id))];
     log := log c ++ [Requested (PUT_task id)] |}.
Proof. reflexivity. Qed.

Lemma Delete_step (c : config) (id : value) :
  step c (Delete id) =
  {| tasks := tasks c; newTask := newTask c;
     pending := pending c ++
                [(DELETE_task id, continuation (handleDeleteTask id))];
     log := log c ++ [Requested (DELETE_task id)] |}.
Proof. reflexivity. Qed.

Lemma Mount_step (c : config) :
  step c Mount =
  {| tasks := tasks c; newTask := newTask c;
     pending := pending c ++ [(GET_tasks, continuation fetchTasks)];
     log := log c ++ [Requested GET_tasks] |}.
Proof. reflexivity. Qed.

(** What resuming does, for each of the four programs that can wait. *)
Lemma resume_fetchTasks (res : fetch_result) (c : config) :
  sync (resume (Fetch GET_tasks (continuation fetchTasks)) res) c =
  match res with
  | NetworkError => emit (Unhandled TypeError) c
  | Response r =>
      match body r with
      | Json data =>
          {| tasks := data; newTask := newTask c; pending := pending c;
             log := log c ++ [TasksSet data] |}
      | NotJson _ => emit (Unhandled SyntaxError) c
      end
  end.
Proof.
  destruct res as [|r]; [reflexivity|].
  unfold continuation, fetchTasks, getTasks, json. simpl.
  destruct (body r); reflexivity.
Qed.

Lemma resume_add_rest (d : jsstring) (res : fetch_result) (c : config) :
  sync (resume (Fetch (POST_tasks d) (continuation (add_rest d))) res) c =
  match res with
  | NetworkError => emit (Unhandled TypeError) c
  | Response r =>
      match body r with
      | Json _ =>
          {| tasks := tasks c; newTask := [];
             pending := pending c ++ [(GET_tasks, continuation fetchTasks)];
             log := log c ++ [NewTaskSet []; Requested GET_tasks] |}
      | NotJson _ => emit (Unhandled SyntaxError) c
      end
  end.
Proof.
  destruct res as [|r]; [reflexivity|].
  unfold continuation, add_rest, createTask, json. simpl.
  destruct (body r); [|reflexivity].
  simpl. unfold emit. simpl. now rewrite <- app_assoc.
Qed.

Lemma resume_handleToggleTask (id : value) (res : fetch_result) (c : config) :
  sync (resume (Fetch (PUT_task id) (continuation (handleToggleTask id))) res)
       c =
  match res with
  | NetworkError => emit (Unhandled TypeError) c
  | Response r =>
      match body r with
      | Json _ =>
          {| tasks := tasks c; newTask := newTask c;
             pending := pending c ++ [(GET_tasks, continuation fetchTasks)];
             log := log c ++ [Requested GET_tasks] |}
      | NotJson _ => emit (Unhandled SyntaxError) c
      end
  end.
Proof.
  destruct res as [|r]; [reflexivity|].
  unfold continuation, handleToggleTask, toggleTask, json. simpl.
  destruct (body r); reflexivity.
Qed.

Lemma resume_handleDeleteTask (id : value) (res : fetch_result) (c : config) :
  sync (resume (Fetch (DELETE_task id) (continuation (handleDeleteTask id)))
               res) c =
  match res with
  | NetworkError => emit (Unhandled TypeError) c
  | Response _ =>
      {| tasks := tasks c; newTask := newTask c;
         pending := pending c ++ [(GET_tasks, continuation fetchTasks)];
         log := log c ++ [Requested GET_tasks] |}
  end.
Proof. destruct res; reflexivity. Qed.

(** ** The requests in flight of a reachable configuration *)

Lemma Forall_remove_nth {A : Type} (P : A -> Prop) (i : nat) (l : list A) :
  Forall P l -> Forall P (remove_nth i l).
Proof.
  intro H. unfold remove_nth. apply Forall_app. split.
  - revert i. induction H; intros [|i]; simpl; auto.
  - generalize (S i) as j. induction H; intros [|j]; simpl; auto.
Qed.

Lemma settle_at (i : nat) (res : fetch_result) (c : config)
    (rq : request) (k : response -> prog unit) :
  nth_error (pending c) i = Some (rq, k) ->
  settle i res c =
  sync (resume (Fetch rq k) res)
       {| tasks := tasks c; newTask := newTask c;
          pending := remove_nth i (pending c); log := log c |}.
Proof. intro H. unfold settle. now rewrite H. Qed.

Lemma settle_nothing (i : nat) (res : fetch_result) (c : config) :
  nth_error (pending c) i = None -> settle i res c = c.
Proof. intro H. unfold settle. now rewrite H. Qed.

(** Splits a step from a well-formed configuration into its cases and
    rewrites it to the configuration it reaches. *)
Ltac step_cases c i W :=
  let E := fresh "E" in
  let n := fresh "n" in
  let res := fresh "res" in
  let w := fresh "w" in
  let Hw := fresh "Hw" in
  destruct i as [|?text| |?id|?id|n res];
  [ rewrite Mount_step
  | change (step c (Change text)) with (sync (handleChange text) c);
    cbn [sync handleChange setNewTask]
  | destruct (trim (newTask c)) eqn:E;
    [ rewrite (Submit_blank c E)
    | rewrite (Submit_not_blank c)
        by (rewrite E; discriminate) ]
  | rewrite Toggle_step
  | rewrite Delete_step
  | change (step c (Arrive n res)) with (settle n res c);
    destruct (nth_error (pending c) n) as [w|] eqn:E;
    [ assert (Hw : waiter w)
        by (eapply Forall_forall; [exact W | eapply nth_error_In; exact E]);
      destruct Hw;
      rewrite (settle_at n res c E);
      [ rewrite resume_fetchTasks
      | rewrite resume_add_rest
      | rewrite resume_handleToggleTask
      | rewrite resume_handleDeleteTask ];
      destruct res as [|?r]; [| try destruct (body r) eqn:?B ..]
    | rewrite (settle_nothing n res c E) ] ].

Lemma step_well_formed (c : config) (i : input) :
  well_formed c -> well_formed (step c i).
Proof.
  intro W.
  step_cases c i W; unfold well_formed, emit; cbn [pending];
    repeat first [ exact W
                 | apply Forall_remove_nth
                 | apply Forall_app; split
                 | constructor ].
Qed.

Lemma steps_snoc (c : config) (ins : list input) (i : input) :
  steps c (ins ++ [i]) = step (steps c ins) i.
Proof. unfold steps. now rewrite fold_left_app. Qed.

Lemma reachable_well_formed (ins : list input) :
  well_formed (steps init ins).
Proof.
  induction ins as [|i ins IH] using rev_ind.
  - constructor.
  - rewrite steps_snoc. now apply step_well_formed.
Qed.

(** ** Add, toggle and delete *)

Lemma step_Arrive (c : config) (n : nat) (res : fetch_result) :
  step c (Arrive n res) = settle n res c.
Proof. reflexivity. Qed.

(** The three operations, run until the response to their API call has
    arrived, for each way the request can settle. *)
Lemma add_settled (c : config) (res : fetch_result) :
  trim (newTask c) <> [] ->
  steps c [Submit; Arrive (length (pending c)) res] =
  let sent := log c ++ [DefaultPrevented; Requested (POST_tasks (newTask c))] in
  let failed (e : error) :=
    {| tasks := tasks c; newTask := newTask c; pending := pending c;
       log := sent ++ [Unhandled e] |} in
  match res with
  | NetworkError => failed TypeError
  | Response r =>
      match body r with
      | Json _ =>
          {| tasks := tasks c; newTask := [];
             pending := pending c ++ [(GET_tasks, continuation fetchTasks)];
             log := sent ++ [NewTaskSet []; Requested GET_tasks] |}
      | NotJson _ => failed SyntaxError
      end
  end.
Proof.
  intro N. unfold steps. cbn [fold_left].
  rewrite (Submit_not_blank c N), step_Arrive, settle_youngest,
    resume_add_rest.
  destruct res as [|r]; [reflexivity|]. destruct (body r); reflexivity.
Qed.

Lemma toggle_settled (c : config) (id : value) (res : fetch_result) :
  steps c [Toggle id; Arrive (length (pending c)) res] =
  let sent := log c ++ [Requested (PUT_task id)] in
  let failed (e : error) :=
    {| tasks := tasks c; newTask := newTask c; pending := pending c;
       log := sent ++ [Unhandled e] |} in
  match res with
  | NetworkError => failed TypeError
  | Response r =>
      match body r with
      | Json _ =>
          {| tasks := tasks c; newTask := newTask c;
             pending := pending c ++ [(GET_tasks, continuation fetchTasks)];
             log := sent ++ [Requested GET_tasks] |}
      | NotJson _ => failed SyntaxError
      end
  end.
Proof.
  unfold steps. cbn [fold_left].
  rewrite Toggle_step, step_Arrive, settle_youngest, resume_handleToggleTask.
  destruct res as [|r]; [reflexivity|]. destruct (body r); reflexivity.
Qed.

Lemma delete_settled (c : config) (id : value) (res : fetch_result) :
  steps c [Delete id; Arrive (length (pending c)) res] =
  let sent := log c ++ [Requested (DELETE_task id)] in
  match res with
  | NetworkError =>
      {| tasks := tasks c; newTask := newTask c; pending := pending c;
         log := sent ++ [Unhandled TypeError] |}
  | Response _ =>
      {| tasks := tasks c; newTask := newTask c;
         pending := pending c ++ [(GET_tasks, continuation fetchTasks)];
         log := sent ++ [Requested GET_tasks] |}
  end.
Proof.
  unfold steps. cbn [fold_left].
  rewrite Delete_step, step_Arrive, settle_youngest, resume_handleDeleteTask.
  destruct res; reflexivity.
Qed.

(** The response to the youngest request, a refresh, arrives. *)
Lemma refresh_settled (t : value) (d : jsstring)
    (l : list (request * (response -> prog unit))) (h : list event)
    (res : fetch_result) :
  step {| tasks := t; newTask := d;
          pending := l ++ [(GET_tasks, continuation fetchTasks)];
          log := h |} (Arrive (length l) res) =
  match res with
  | NetworkError =>
      {| tasks := t; newTask := d; pending := l;
         log := h ++ [Unhandled TypeError] |}
  | Response r =>
      match body r with
      | Json data =>
          {| tasks := data; newTask := d; pending := l;
             log := h ++ [TasksSet data] |}
      | NotJson _ =>
          {| tasks := t; newTask := d; pending := l;
             log := h ++ [Unhandled SyntaxError] |}
      end
  end.
Proof.
  rewrite step_Arrive, settle_youngest, resume_fetchTasks.
  destruct res as [|r]; [reflexivity|]. destruct (body r); reflexivity.
Qed.

(** C1 (as stated, refuted).  A toggle whose request the server answers
    with a body that is not JSON (here an empty 204), and a toggle whose
    request fails on the network: the API call is made and completes, yet
    no refresh follows it; nothing is in flight and the list is the one of
    the previous fetch. *)
Lemma no_refresh_after_rejected_toggle :
  let listed := VArr [task 1 "Buy milk" false] in
  let c := steps init
             [Mount; Arrive 0 (ok200 listed); Toggle (VNum 1);
              Arrive 0 (Response {| status := 204; body := NotJson [] |})] in
  let c' := steps init
              [Mount; Arrive 0 (ok200 listed); Toggle (VNum 1);
               Arrive 0 NetworkError] in
  (requests c = [GET_tasks; PUT_task (VNum 1)] /\
   in_flight c = [] /\
   tasks c = listed /\
   rejections c = [SyntaxError]) /\
  (requests c' = [GET_tasks; PUT_task (VNum 1)] /\
   in_flight c' = [] /\
   tasks c' = listed /\
   rejections c' = [TypeError]).
Proof. repeat split. Qed.

(** C1 (amended).  For each of add, toggle and delete, once the API call
    of the operation has resolved, the controller has issued the request
    of a full refresh right after that of the call and has left [tasks] as
    it was (nothing is patched); and when the response to that refresh
    arrives with a JSON body, [tasks] becomes exactly that value, whatever
    it is: same items, same order. *)
Theorem refresh_follows_resolved_call
    (c : config) (op : input) (p : prog value) (res : fetch_result)
    (v : value) :
  api_call (newTask c) op = Some p ->
  resume p res = Ret v ->
  let n := length (pending c) in
  let c1 := steps c [op; Arrive n res] in
  (exists rq : request,
      first_request p = Some rq /\
      requests c1 = requests c ++ [rq; GET_tasks]) /\
  in_flight c1 = in_flight c ++ [GET_tasks] /\
  tasks c1 = tasks c /\
  forall (r : response) (data : value),
    body r = Json data ->
    tasks (step c1 (Arrive n (Response r))) = data.
Proof.
  intros Hp Hv n c1. subst n c1.
  destruct op; simpl in Hp; try discriminate.
  - (* add *)
    destruct (trim (newTask c)) as [|a s] eqn:E; [discriminate|].
    injection Hp as <-.
    destruct res as [|r]; [discriminate|].
    unfold createTask, json in Hv. simpl in Hv.
    destruct (body r) as [created|] eqn:B; [|discriminate].
    rewrite add_settled by (rewrite E; discriminate).
    cbv zeta. rewrite B.
    repeat split.
    + exists (POST_tasks (newTask c)). split; [reflexivity|].
      unfold requests. cbn [log]. rewrite !flat_map_app.
      cbn. now rewrite <- app_assoc.
    + unfold in_flight. cbn [pending]. now rewrite map_app.
    + intros r' data B'. rewrite refresh_settled, B'. reflexivity.
  - (* toggle *)
    injection Hp as <-.
    destruct res as [|r]; [discriminate|].
    unfold toggleTask, json in Hv. simpl in Hv.
    destruct (body r) as [updated|] eqn:B; [|discriminate].
    rewrite toggle_settled. cbv zeta. rewrite B.
    repeat split.
    + exists (PUT_task id). split; [reflexivity|].
      unfold requests. cbn [log]. rewrite !flat_map_app.
      cbn. now rewrite <- app_assoc.
    + unfold in_flight. cbn [pending]. now rewrite map_app.
    + intros r' data B'. rewrite refresh_settled, B'. reflexivity.
  - (* delete *)
    injection Hp as <-.
    destruct res as [|r]; [discriminate|].
    rewrite delete_settled. cbv zeta.
    repeat split.
    + exists (DELETE_task id). split; [reflexivity|].
      unfold requests. cbn [log]. rewrite !flat_map_app.
      cbn. now rewrite <- app_assoc.
    + unfold in_flight. cbn [pending]. now rewrite map_app.
    + intros r' data B'. rewrite refresh_settled, B'. reflexivity.
Qed.

Lemma refresh_follows_resolved_call_witness :
  let updated := task 1 "Buy milk" true in
  let listed := VArr [task 2 "Walk dog" false; updated] in
  api_call (newTask init) (Toggle (VNum 1)) = Some (toggleTask (VNum 1)) /\
  resume (toggleTask (VNum 1)) (ok200 updated) = Ret updated /\
  tasks (steps init [Toggle (VNum 1); Arrive 0 (ok200 updated);
                     Arrive 0 (ok200 listed)]) = listed.
Proof.
  intros updated listed.
  split; [reflexivity|]. split; [reflexivity|].
  apply (@refresh_follows_resolved_call init (Toggle (VNum 1))
           (toggleTask (VNum 1)) (ok200 updated) updated
           eq_refl eq_refl).
  reflexivity.
Defined.

(** C2.  Submitting a draft whose trimmed form is empty (that is, a draft
    that is empty or all white space) does nothing but
    [e.preventDefault()]: no request is issued, so [createTask] is not
    invoked; [tasks] and what [App] renders are unchanged; nothing is
    rejected. *)
Theorem blank_submit_is_noop (c : config) :
  trim (newTask c) = [] ->
  let c' := step c Submit in
  blank (newTask c) = true /\
  log c' = log c ++ [DefaultPrevented] /\
  requests c' = requests c /\
  pending c' = pending c /\
  tasks c' = tasks c /\
  newTask c' = newTask c /\
  App (tasks c') (newTask c') = App (tasks c) (newTask c) /\
  rejections c' = rejections c.
Proof.
  intros E c'. subst c'. rewrite (Submit_blank c E).
  unfold requests, rejections, emit. cbn [log tasks newTask pending].
  rewrite !flat_map_app. cbn. rewrite !app_nil_r.
  repeat split. now apply trim_nil_iff_blank.
Qed.

Lemma blank_submit_is_noop_witness :
  let c := steps init [Mount; Arrive 0 (ok200 (VArr [task 1 "Buy milk" true]));
                       Change (lit "   ")] in
  trim (newTask c) = [] /\
  requests (step c Submit) = [GET_tasks] /\
  tasks (step c Submit) = VArr [task 1 "Buy milk" true] /\
  newTask (step c Submit) = lit "   ".
Proof.
  intro c.
  pose proof (@blank_submit_is_noop c eq_refl) as H. cbv zeta in H.
  destruct H as (_ & _ & Hr & _ & Ht & Hd & _).
  split; [reflexivity|]. split; [|split].
  - rewrite Hr. reflexivity.
  - rewrite Ht. reflexivity.
  - rewrite Hd. reflexivity.
Defined.

(** C4 (as stated, refuted).  A non-blank draft is submitted and the POST
    fails on the network, or is answered with a body that is not JSON:
    [createTask] was called, but the draft is not cleared and no refresh
    is triggered. *)
Lemma failed_add_keeps_draft_and_skips_refresh :
  let c := steps init [Change (lit "Write spec"); Submit;
                       Arrive 0 NetworkError] in
  let c' := steps init
              [Change (lit "Write spec"); Submit;
               Arrive 0 (Response {| status := 201; body := NotJson [] |})] in
  (requests c = [POST_tasks (lit "Write spec")] /\
   newTask c = lit "Write spec" /\
   in_flight c = [] /\
   rejections c = [TypeError]) /\
  (requests c' = [POST_tasks (lit "Write spec")] /\
   newTask c' = lit "Write spec" /\
   in_flight c' = [] /\
   rejections c' = [SyntaxError]).
Proof. repeat split. Qed.

(** C4 (amended).  Submitting a draft whose trimmed form is not empty
    calls [createTask] with the draft and waits.  When that call resolves
    (the response, of whatever status, has a JSON body), the draft is set
    to the empty string and then the request of a full refresh is issued.
    The created task of the response is not used: [tasks] is untouched,
    and the configuration reached is the same for every such response. *)
Theorem add_clears_draft_then_refreshes (c : config) :
  trim (newTask c) <> [] ->
  let n := length (pending c) in
  let c1 := step c Submit in
  log c1 = log c ++ [DefaultPrevented; Requested (POST_tasks (newTask c))] /\
  first_request (createTask (newTask c)) = Some (POST_tasks (newTask c)) /\
  newTask c1 = newTask c /\
  tasks c1 = tasks c /\
  forall (r : response) (created : value),
    body r = Json created ->
    let c2 := step c1 (Arrive n (Response r)) in
    log c2 = log c1 ++ [NewTaskSet []; Requested GET_tasks] /\
    newTask c2 = [] /\
    tasks c2 = tasks c /\
    in_flight c2 = in_flight c ++ [GET_tasks] /\
    forall (r' : response) (created' : value),
      body r' = Json created' ->
      step c1 (Arrive n (Response r')) = c2.
Proof.
  intros N n c1. subst n c1.
  assert (S : forall (r : response) (created : value),
             body r = Json created ->
             step (step c Submit) (Arrive (length (pending c)) (Response r)) =
             {| tasks := tasks c; newTask := [];
                pending := pending c ++ [(GET_tasks, continuation fetchTasks)];
                log := log (step c Submit) ++
                       [NewTaskSet []; Requested GET_tasks] |}).
  { intros r created B.
    pose proof (add_settled c (Response r) N) as S.
    unfold steps in S. cbn [fold_left] in S. cbv zeta in S.
    rewrite B in S. rewrite S, (Submit_not_blank c N). reflexivity. }
  do 4 (split; [rewrite ?(Submit_not_blank c N); reflexivity|]).
  intros r created B c2. subst c2.
  rewrite (S r created B). cbn [log newTask tasks].
  do 3 (split; [reflexivity|]). split.
  - unfold in_flight. cbn [pending]. now rewrite map_app.
  - intros r' created' B'. apply (S r' created' B').
Qed.

Lemma add_clears_draft_then_refreshes_witness :
  let c := steps init [Change (lit "Write spec")] in
  let created := Response {| status := 201;
                             body := Json (task 1 "Write spec" false) |} in
  trim (newTask c) <> [] /\
  newTask (steps c [Submit; Arrive 0 created]) = [] /\
  requests (steps c [Submit; Arrive 0 created]) =
    [POST_tasks (lit "Write spec"); GET_tasks].
Proof.
  intros c created.
  assert (N : trim (newTask c) <> []) by discriminate.
  split; [exact N|].
  pose proof (@add_clears_draft_then_refreshes c N) as H. cbv zeta in H.
  destruct H as (_ & _ & _ & _ & H).
  destruct (H {| status := 201; body := Json (task 1 "Write spec" false) |}
              (task 1 "Write spec" false) eq_refl) as (_ & Hd & _).
  split; [exact Hd | reflexivity].
Defined.

(** C9.  The title sent is the draft as typed: when the trimmed draft is
    not empty, the handler calls [createTask] with the draft itself, and
    the body of the POST is the object whose [title] is that string.  A
    draft with white space at either end is therefore not sent in its
    trimmed form. *)
Theorem add_posts_untrimmed_draft (c : config) :
  trim (newTask c) <> [] ->
  let sent := {| url := API_URL ++ lit "/tasks";
                 method := POST;
                 headers := [(lit "Content-Type", lit "application/json")];
                 req_body :=
                   Some (Json (VObj [(lit "title", VStr (newTask c))])) |} in
  api_call (newTask c) Submit = Some (createTask (newTask c)) /\
  first_request (createTask (newTask c)) = Some sent /\
  requests (step c Submit) = requests c ++ [sent] /\
  in_flight (step c Submit) = in_flight c ++ [sent] /\
  (trim (newTask c) <> newTask c ->
   req_body sent <>
   Some (Json (VObj [(lit "title", VStr (trim (newTask c)))]))).
Proof.
  intros N sent. subst sent.
  rewrite (Submit_not_blank c N).
  unfold requests, in_flight. cbn [log pending].
  rewrite flat_map_app, map_app.
  repeat split.
  - simpl. destruct (trim (newTask c)); [congruence | reflexivity].
  - intros D E. apply D. simpl in E. congruence.
Qed.

Lemma add_posts_untrimmed_draft_witness :
  let c := steps init [Change (lit "  Write spec ")] in
  trim (newTask c) <> [] /\
  trim (newTask c) = lit "Write spec" /\
  requests (step c Submit) = [POST_tasks (lit "  Write spec ")].
Proof.
  intro c.
  assert (N : trim (newTask c) <> []) by discriminate.
  split; [exact N|]. split; [reflexivity|].
  pose proof (@add_posts_untrimmed_draft c N) as H. cbv zeta in H.
  destruct H as (_ & _ & H & _). rewrite H. reflexivity.
Defined.

(** ** The API client and HTTP status codes *)




(** ** Failure of the refresh *)

(** C5.  [getTasks] is rejected exactly when the request fails on the
    network or the body of the response is not JSON, and resolves with the
    parsed body otherwise.  When a refresh ([fetchTasks], called in any
    configuration [c]) fails in this way, the rejection is unhandled and
    [tasks] is as it was; [tasks] is written only when the body has
    parsed. *)
Theorem getTasks_fails_iff (res : fetch_result) (c : config) :
  let failed :=
    res = NetworkError \/
    exists (r : response) (text : jsstring),
      res = Response r /\ body r = NotJson text in
  ((exists e : error, resume getTasks res = Throw e) <-> failed) /\
  (forall data : value,
      resume getTasks res = Ret data <->
      exists r : response, res = Response r /\ body r = Json data) /\
  let n := length (pending c) in
  let c1 := sync fetchTasks c in
  let c2 := step c1 (Arrive n res) in
  in_flight c1 = in_flight c ++ [GET_tasks] /\
  (failed ->
   tasks c2 = tasks c /\ newTask c2 = newTask c /\
   exists e : error,
     log c2 = log c1 ++ [Unhandled e] /\
     rejections c2 = rejections c ++ [e]) /\
  (forall (r : response) (data : value),
      res = Response r -> body r = Json data ->
      tasks c2 = data /\ rejections c2 = rejections c).
Proof.
  intros failed. subst failed.
  split; [|split].
  - unfold getTasks, fetch, json. simpl. split.
    + intros [e H]. destruct res as [|r]; [now left|].
      right. destruct (body r) as [v|text] eqn:B; [discriminate|].
      now exists r, text.
    + intros [->|(r & text & -> & B)].
      * now exists TypeError.
      * rewrite B. now exists SyntaxError.
  - intro data. unfold getTasks, fetch, json. simpl. split.
    + intro H. destruct res as [|r]; [discriminate|].
      exists r. split; [reflexivity|].
      destruct (body r); [congruence | discriminate].
    + intros (r & -> & B). now rewrite B.
  - intros n c1 c2. subst n c1 c2.
    change (sync fetchTasks c) with (step c Mount).
    rewrite Mount_step, refresh_settled.
    unfold in_flight, rejections. cbn [pending log]. rewrite map_app.
    split; [reflexivity|]. split.
    + intros [->|(r & text & -> & B)]; [|rewrite B];
        cbn [tasks newTask log]; (do 2 (split; [reflexivity|]));
        eexists; (split; [reflexivity|]);
        rewrite !flat_map_app; cbn; now rewrite app_nil_r.
    + intros r data -> B. rewrite B. cbn [tasks log].
      split; [reflexivity|].
      rewrite !flat_map_app. cbn. now rewrite !app_nil_r.
Qed.

(** ** The row view *)

(** On any object, whatever its fields hold, the class follows the
    truthiness of [completed]. *)
Lemma TaskItem_className
    (fields : list (jsstring * value))
    (onToggle onDelete : value -> prog unit) :
  exists r : row,
    TaskItem (VObj fields) onToggle onDelete = Ok r /\
    span_className r =
      if truthy (lookup (lit "completed") fields) then strike else [].
Proof. eexists. split; reflexivity. Qed.

(** C6.  [TaskItem] is a function of the task and the two callbacks.  On a
    task whose [completed] is a boolean, the title is struck through if
    and only if [completed] is [true], which is the only choice the view
    makes; the checkbox shows [completed] and calls [onToggle(task.id)]
    when changed, and the button calls [onDelete(task.id)]. *)
Theorem TaskItem_row
    (fields : list (jsstring * value)) (onToggle onDelete : value -> prog unit)
    (completed : bool) :
  lookup (lit "completed") fields = VBool completed ->
  exists r : row,
    TaskItem (VObj fields) onToggle onDelete = Ok r /\
    (span_className r = strike <-> completed = true) /\
    span_className r = (if completed then strike else []) /\
    checkbox_checked r = VBool completed /\
    span_text r = lookup (lit "title") fields /\
    checkbox_onChange r = onToggle (lookup (lit "id") fields) /\
    button_onClick r = onDelete (lookup (lit "id") fields).
Proof.
  intro H. unfold TaskItem, get. rewrite H. eexists. split; [reflexivity|].
  cbn [span_className checkbox_checked span_text checkbox_onChange
       button_onClick truthy].
  repeat split; destruct completed; (reflexivity || discriminate).
Qed.

Lemma TaskItem_row_witness :
  let fields := [(lit "id", VNum 1); (lit "title", VStr (lit "Buy milk"));
                 (lit "completed", VBool true)] in
  lookup (lit "completed") fields = VBool true /\
  exists r : row,
    TaskItem (VObj fields) handleToggleTask handleDeleteTask = Ok r /\
    span_className r = strike /\
    checkbox_onChange r = handleToggleTask (VNum 1) /\
    button_onClick r = handleDeleteTask (VNum 1).
Proof.
  intro fields. split; [reflexivity|].
  destruct (@TaskItem_row fields handleToggleTask handleDeleteTask true
              eq_refl) as (r & Hr & _ & Hs & _ & _ & Ht & Hd).
  exists r. repeat split; assumption.
Defined.

(** ** Delete *)

(** The text of an identifier in a URL: a string as it is, a number as
    JavaScript prints it. *)
Example ToString_of_ids :
  ToString (VStr (lit "a1b2")) = lit "a1b2" /\
  ToString (VNum 42) = lit "42" /\
  ToString (VNum (-7)) = lit "-7" /\
  ToString (VNum (2 ^ 53 + 1)) = lit "9007199254740992" /\
  ToString (VNum (2 ^ 60)) = lit "1152921504606847000" /\
  ToString (VNum (10 ^ 21)) = lit "1e+21" /\
  ToString (VNum (2 ^ 70)) = lit "1.1805916207174113e+21" /\
  ToString (VArr [VNum 1; VNull; VArr [VStr (lit "a"); VNum 2]]) =
    lit "1,,a,2" /\
  stringifies (VObj [(lit "toString", VNum 1)]) = false.
Proof. vm_compute. repeat split. Qed.

(** C7.  For an [id] that converts to a string, [deleteTask(id)] issues
    DELETE [/tasks/{id}], with the text of [id] after the fixed base URL,
    and resolves with [undefined] on every response: neither the status
    nor the body is looked at.  The caller goes on in the same way
    whatever the response, and nothing is rejected. *)
Theorem deleteTask_discards_response
    (id : value) (c : config) (r r' : response) :
  stringifies id = true ->
  first_request (deleteTask id) =
    Some {| url := lit "http://localhost:3001/api/tasks/" ++ ToString id;
            method := DELETE; headers := []; req_body := None |} /\
  resume (deleteTask id) (Response r) = Ret VUndefined /\
  let n := length (pending c) in
  steps c [Delete id; Arrive n (Response r)] =
    steps c [Delete id; Arrive n (Response r')] /\
  rejections (steps c [Delete id; Arrive n (Response r)]) = rejections c /\
  requests (steps c [Delete id; Arrive n (Response r)]) =
    requests c ++ [DELETE_task id; GET_tasks].
Proof.
  intros _.
  do 2 (split; [reflexivity|]). intro n. subst n.
  rewrite !delete_settled. cbv zeta. split; [reflexivity|].
  unfold rejections, requests. cbn [log]. rewrite !flat_map_app. cbn.
  rewrite !app_nil_r, <- app_assoc. split; reflexivity.
Qed.

Lemma deleteTask_discards_response_witness :
  let gone := {| status := 404; body := NotJson (lit "Not Found") |} in
  let sent (m : http_method) (text : string) :=
    {| url := lit text; method := m; headers := []; req_body := None |} in
  stringifies (VNum 42) = true /\
  first_request (deleteTask (VNum 42)) =
    Some (sent DELETE "http://localhost:3001/api/tasks/42"%string) /\
  resume (deleteTask (VNum 42)) (Response gone) = Ret VUndefined /\
  requests (steps init [Delete (VNum 42); Arrive 0 (Response gone)]) =
    [sent DELETE "http://localhost:3001/api/tasks/42"%string;
     sent GET "http://localhost:3001/api/tasks"%string] /\
  rejections (steps init [Delete (VNum 42); Arrive 0 (Response gone)]) = [].
Proof.
  intros gone sent.
  destruct (@deleteTask_discards_response (VNum 42) init gone gone eq_refl)
    as (H1 & H2 & H3).
  cbv zeta in H3. destruct H3 as (_ & H4 & H5).
  split; [reflexivity|].
  split; [rewrite H1; reflexivity|].
  split; [exact H2|].
  split; [etransitivity; [exact H5 | reflexivity]
         | etransitivity; [exact H4 | reflexivity]].
Defined.

(** ** Who writes the state *)

Ltac writes_simpl :=
  unfold tasks_writes, draft_writes, emit;
  cbn [log tasks newTask pending];
  rewrite ?flat_map_app; cbn [flat_map app];
  rewrite ?app_nil_r.

(** C8.  [tasks] is written by the completion of a refresh and by nothing
    else.  A step from a reachable configuration, whatever the event
    (mount, typing, submit, toggle, delete, the arrival of a response or
    of a network failure), either calls [setTasks] not at all and leaves
    [tasks] as it is, or is the arrival of a response with a JSON body to
    a request that [fetchTasks] is waiting for, and then calls [setTasks]
    once, with that body. *)
Theorem tasks_written_only_by_refresh (ins : list input) (i : input) :
  let c := steps init ins in
  let c' := step c i in
  (tasks_writes c' = tasks_writes c /\ tasks c' = tasks c) \/
  (exists (n : nat) (r : response) (data : value),
      i = Arrive n (Response r) /\
      nth_error (pending c) n = Some (GET_tasks, continuation fetchTasks) /\
      body r = Json data /\
      tasks_writes c' = tasks_writes c ++ [data] /\
      tasks c' = data).
Proof.
  intros c c'. subst c'.
  pose proof (reachable_well_formed ins) as W. fold c in W.
  step_cases c i W; writes_simpl;
    try (left; split; reflexivity).
  right. exists n, r, v. repeat split; assumption.
Qed.

(** C10.  The draft is cleared only by an add that succeeded.  Toggle and
    delete, followed through the arrival of their response and of the
    response to the refresh, leave the draft as it is; so does the submit
    itself, and with a blank draft nothing is left in flight that could
    touch it later.  In general a step from a reachable configuration
    either does not call [setNewTask] and leaves the draft as it is, or is
    typing into the field, or is the arrival of a response with a JSON
    body to a POST that the add handler is waiting for, which sets the
    draft to the empty string. *)
Theorem draft_cleared_only_by_successful_add
    (ins : list input) (i : input) (c0 : config) (id : value)
    (res res' : fetch_result) :
  let n := length (pending c0) in
  newTask (steps c0 [Toggle id; Arrive n res; Arrive n res']) = newTask c0 /\
  newTask (steps c0 [Delete id; Arrive n res; Arrive n res']) = newTask c0 /\
  newTask (step c0 Submit) = newTask c0 /\
  (trim (newTask c0) = [] -> pending (step c0 Submit) = pending c0) /\
  let c := steps init ins in
  let c' := step c i in
  (draft_writes c' = draft_writes c /\ newTask c' = newTask c) \/
  (exists text : jsstring,
      i = Change text /\
      draft_writes c' = draft_writes c ++ [text] /\ newTask c' = text) \/
  (exists (k : nat) (r : response) (created : value) (d : jsstring),
      i = Arrive k (Response r) /\
      nth_error (pending c) k =
        Some (POST_tasks d, continuation (add_rest d)) /\
      body r = Json created /\
      draft_writes c' = draft_writes c ++ [[]] /\
      newTask c' = []).
Proof.
  intro n. subst n.
  change (steps c0 [Toggle id; Arrive (length (pending c0)) res;
                    Arrive (length (pending c0)) res'])
    with (step (steps c0 [Toggle id; Arrive (length (pending c0)) res])
               (Arrive (length (pending c0)) res')).
  change (steps c0 [Delete id; Arrive (length (pending c0)) res;
                    Arrive (length (pending c0)) res'])
    with (step (steps c0 [Delete id; Arrive (length (pending c0)) res])
               (Arrive (length (pending c0)) res')).
  split; [|split; [|split; [|split]]].
  - rewrite toggle_settled. cbv zeta.
    destruct res as [|r]; [|destruct (body r)];
      try (rewrite refresh_settled;
           destruct res' as [|r']; [|destruct (body r')]; reflexivity);
      rewrite step_Arrive, settle_nothing; try reflexivity;
      cbn [pending]; apply nth_error_None; lia.
  - rewrite delete_settled. cbv zeta.
    destruct res as [|r];
      try (rewrite refresh_settled;
           destruct res' as [|r']; [|destruct (body r')]; reflexivity);
      rewrite step_Arrive, settle_nothing; try reflexivity;
      cbn [pending]; apply nth_error_None; lia.
  - destruct (trim (newTask c0)) eqn:E.
    + now rewrite (Submit_blank c0 E).
    + now rewrite (Submit_not_blank c0) by (rewrite E; discriminate).
  - intro E. now rewrite (Submit_blank c0 E).
  - intros c c'. subst c'.
    pose proof (reachable_well_formed ins) as W. fold c in W.
    step_cases c i W; writes_simpl;
      try (left; split; reflexivity).
    + right. left. exists text. repeat split.
    + right. right. exists n, r, v, d. repeat split; assumption.
Qed.

(** ** A session *)

(** The list is empty at first; the user types a title and submits; the
    client posts it, clears the field and fetches the list, which now has
    the one task, unchecked. *)
Example write_spec_session :
  let listed := VArr [task 1 "Write spec" false] in
  let c := steps init
             [Mount; Arrive 0 (ok200 (VArr []));
              Change (lit "Write spec"); Submit;
              Arrive 0 (Response {| status := 201;
                                    body := Json (task 1 "Write spec" false) |});
              Arrive 0 (ok200 listed)] in
  requests c = [GET_tasks; POST_tasks (lit "Write spec"); GET_tasks] /\
  tasks c = listed /\
  newTask c = [] /\
  in_flight c = [] /\
  rejections c = [] /\
  exists v : view,
    App (tasks c) (newTask c) = Ok v /\
    map span_text (rows v) = [VStr (lit "Write spec")] /\
    map checkbox_checked (rows v) = [VBool false] /\
    map span_className (rows v) = [[]] /\
    map checkbox_onChange (rows v) = [handleToggleTask (VNum 1)] /\
    map button_onClick (rows v) = [handleDeleteTask (VNum 1)].
Proof.
  cbv zeta. do 5 (split; [reflexivity|]).
  eexists. split; [reflexivity|]. repeat split.
Qed.

(** Two refreshes in flight settle in either order; the one that arrives
    last decides the list. *)
Example last_response_wins :
  let old := VArr [task 1 "Buy milk" false] in
  let new := VArr [task 1 "Buy milk" true] in
  tasks (steps init [Mount; Mount; Arrive 1 (ok200 new);
                     Arrive 0 (ok200 old)]) = old.
Proof. reflexivity. Qed.

(** * Further properties of the code *)

(** ** From a row to the wire *)

Lemma jsstring_eqb_eq (a b : jsstring) : jsstring_eqb a b = true <-> a = b.
Proof.
  unfold jsstring_eqb. destruct (list_eq_dec N.eq_dec a b); split;
    (congruence || discriminate || reflexivity).
Qed.

Lemma lookup_absent (key : jsstring) (fields : list (jsstring * value)) :
  ~ In key (map fst fields) -> lookup key fields = VUndefined.
Proof.
  induction fields as [|[k x] fields IH]; simpl; [reflexivity|].
  intro H. destruct (jsstring_eqb k key) eqn:E.
  - apply jsstring_eqb_eq in E. tauto.
  - apply IH. tauto.
Qed.

(** X3.  From a rendered row to the wire: for a task object whose [id]
    converts to a string (or is missing), changing the checkbox of its row
    sends PUT [/tasks/{id}], and its button sends DELETE [/tasks/{id}],
    where [{id}] is the text of the task's [id] field, to the fixed base
    URL and without a body.  When the object has no [id] field the request
    goes to [/tasks/undefined]. *)
Theorem row_controls_send_task_id
    (fields : list (jsstring * value)) (c : config) :
  stringifies (lookup (lit "id") fields) = true ->
  exists r : row,
    TaskItem (VObj fields) handleToggleTask handleDeleteTask = Ok r /\
    let id := lookup (lit "id") fields in
    let target := lit "http://localhost:3001/api/tasks/" ++ ToString id in
    requests (sync (checkbox_onChange r) c) =
      requests c ++ [{| url := target; method := PUT;
                        headers := []; req_body := None |}] /\
    requests (sync (button_onClick r) c) =
      requests c ++ [{| url := target; method := DELETE;
                        headers := []; req_body := None |}] /\
    tasks (sync (checkbox_onChange r) c) = tasks c /\
    tasks (sync (button_onClick r) c) = tasks c /\
    (~ In (lit "id") (map fst fields) ->
     target = lit "http://localhost:3001/api/tasks/undefined").
Proof.
  intros _.
  eexists. split; [reflexivity|].
  cbv zeta. cbn [checkbox_onChange button_onClick].
  change (sync (handleToggleTask (lookup (lit "id") fields)) c)
    with (step c (Toggle (lookup (lit "id") fields))).
  change (sync (handleDeleteTask (lookup (lit "id") fields)) c)
    with (step c (Delete (lookup (lit "id") fields))).
  rewrite Toggle_step, Delete_step. unfold requests. cbn [log tasks].
  rewrite !flat_map_app. cbn [flat_map app].
  do 4 (split; [reflexivity|]).
  intro H. now rewrite (lookup_absent _ _ H).
Qed.

Lemma row_controls_send_task_id_witness :
  let fields := [(lit "id", VNum 7); (lit "title", VStr (lit "Buy milk"));
                 (lit "completed", VBool false)] in
  stringifies (lookup (lit "id") fields) = true /\
  exists r : row,
    TaskItem (VObj fields) handleToggleTask handleDeleteTask = Ok r /\
    requests (sync (checkbox_onChange r) init) =
      [{| url := lit "http://localhost:3001/api/tasks/7"; method := PUT;
          headers := []; req_body := None |}] /\
    requests (sync (button_onClick r) init) =
      [{| url := lit "http://localhost:3001/api/tasks/7"; method := DELETE;
          headers := []; req_body := None |}].
Proof.
  intro fields. split; [reflexivity|].
  destruct (@row_controls_send_task_id fields init eq_refl)
    as (r & Hr & H).
  cbv zeta in H. destruct H as (Hp & Hd & _).
  exists r. split; [exact Hr|].
  split; [rewrite Hp | rewrite Hd]; reflexivity.
Defined.

(** X4.  A refresh that is answered with JSON that is not an array (an
    error object, say, under any status) is taken as the new list without
    complaint, and the next rendering of [App] throws a [TypeError]. *)
Theorem non_array_refresh_breaks_render
    (c : config) (r : response) (data : value) :
  body r = Json data ->
  (forall items : list value, data <> VArr items) ->
  let c' := steps c [Mount; Arrive (length (pending c)) (Response r)] in
  tasks c' = data /\
  rejections c' = rejections c /\
  App (tasks c') (newTask c') = Thrown TypeError.
Proof.
  intros B NA c'. subst c'. unfold steps. cbn [fold_left].
  rewrite Mount_step, refresh_settled, B.
  unfold rejections. cbn [tasks newTask log]. rewrite !flat_map_app.
  cbn [flat_map app]. rewrite !app_nil_r.
  do 2 (split; [reflexivity|]).
  destruct data; try reflexivity. now destruct (NA items).
Qed.

Lemma non_array_refresh_breaks_render_witness :
  let data := VObj [(lit "error", VStr (lit "database is down"))] in
  let r := {| status := 500; body := Json data |} in
  body r = Json data /\
  (forall items : list value, data <> VArr items) /\
  App (tasks (steps init [Mount; Arrive 0 (Response r)])) [] =
    Thrown TypeError.
Proof.
  intros data r.
  assert (NA : forall items : list value, data <> VArr items)
    by (intros items; discriminate).
  split; [reflexivity|]. split; [exact NA|].
  destruct (@non_array_refresh_breaks_render init r data eq_refl NA)
    as (_ & _ & H).
  exact H.
Defined.

(** ** What the controller sends and holds, over all runs *)

Ltac log_simpl :=
  unfold requests, rejections, tasks_writes, draft_writes, emit;
  cbn [log tasks newTask pending];
  rewrite ?flat_map_app; cbn [flat_map app];
  rewrite ?app_nil_r.

Lemma not_blank_of_trim (d : jsstring) (a : N) (s : jsstring) :
  trim d = a :: s -> blank d = false.
Proof.
  intro E. destruct (blank d) eqn:B; [|reflexivity].
  apply trim_nil_iff_blank in B. congruence.
Qed.

(** X5.  Whatever the user does and whatever the network answers, the
    client only ever sends four kinds of request: GET [/tasks], PUT and
    DELETE [/tasks/{id}] without a body, and POST [/tasks] with a title
    that is not blank. *)
Theorem only_four_kinds_of_request (ins : list input) :
  Forall request_shape (requests (steps init ins)).
Proof.
  induction ins as [|i ins IH] using rev_ind; [constructor|].
  rewrite steps_snoc.
  pose proof (reachable_well_formed ins) as W.
  set (c := steps init ins) in *.
  step_cases c i W; log_simpl; fold (requests c);
    repeat (apply Forall_app; split); try exact IH;
    repeat first [apply Forall_cons | apply Forall_nil];
    try (left; reflexivity).
  - right. left. exists (newTask c). split; [reflexivity|].
    eapply not_blank_of_trim. exact E.
  - right. right. left. now exists id.
  - right. right. right. now exists id.
Qed.

(** X6.  The client makes up no data.  In every run the list it holds is
    the initial empty array or, unchanged, the JSON body of a response
    that has arrived; the draft it holds is the empty string or a text
    that was typed. *)
Theorem state_comes_from_outside (ins : list input) :
  let c := steps init ins in
  (tasks c = VArr [] \/
   exists (n : nat) (r : response),
     In (Arrive n (Response r)) ins /\ body r = Json (tasks c)) /\
  (newTask c = [] \/
   exists text : jsstring, In (Change text) ins /\ newTask c = text).
Proof.
  induction ins as [|i ins IH] using rev_ind.
  - split; left; reflexivity.
  - cbv zeta in *. rewrite steps_snoc.
    pose proof (reachable_well_formed ins) as W.
    set (c := steps init ins) in *.
    assert (K : (tasks c = VArr [] \/
                 exists (n : nat) (r : response),
                   In (Arrive n (Response r)) (ins ++ [i]) /\
                   body r = Json (tasks c)) /\
                (newTask c = [] \/
                 exists text : jsstring,
                   In (Change text) (ins ++ [i]) /\ newTask c = text)).
    { destruct IH as [[T|(n & r & Hin & B)] [D|(text & Hin' & D)]];
        (split; [first [left; exact T
                       | right; exists n, r; split;
                         [apply in_or_app; left; exact Hin | exact B]]
                | first [left; exact D
                       | right; exists text; split;
                         [apply in_or_app; left; exact Hin' | exact D]]]). }
    destruct K as [KT KD].
    step_cases c i W; unfold emit; cbn [tasks newTask];
      split; try exact KT; try exact KD; try (left; reflexivity).
    + right. exists text. split; [|reflexivity].
      apply in_or_app. right. now left.
    + right. exists n, r. split; [|exact B].
      apply in_or_app. right. now left.
Qed.

(** ** No request storms *)

Lemma filter_remove_nth {A : Type} (f : A -> bool) (l : list A)
    (n : nat) (a : A) :
  nth_error l n = Some a ->
  length (filter f l) =
  length (filter f (remove_nth n l)) + (if f a then 1 else 0).
Proof.
  unfold remove_nth. revert n. induction l as [|x l IH]; intros [|n]; simpl;
    try discriminate.
  - intro H. injection H as ->. destruct (f a); simpl; lia.
  - intro H. specialize (IH n H). simpl in IH.
    destruct (f x); simpl; lia.
Qed.

Lemma actions_snoc (ins : list input) (i : input) :
  actions (ins ++ [i]) = actions ins + (if is_action i then 1 else 0).
Proof.
  unfold actions. rewrite filter_app, length_app. simpl.
  destruct (is_action i); reflexivity.
Qed.

(** X7.  The client sends at most two requests per action of the user
    (mount, submit, toggle, delete), however the network answers: nothing
    is retried and nothing is polled.  (The count that is kept along a run
    adds the mutations still in flight, each of which may yet cause one
    refresh.) *)
Theorem at_most_two_requests_per_action (ins : list input) :
  length (requests (steps init ins)) <= 2 * actions ins.
Proof.
  enough (B : length (requests (steps init ins)) +
              mutations_waiting (steps init ins) <= 2 * actions ins) by lia.
  induction ins as [|i ins IH] using rev_ind; [cbv; lia|].
  rewrite steps_snoc, actions_snoc.
  pose proof (reachable_well_formed ins) as W.
  set (c := steps init ins) in *.
  unfold mutations_waiting in *.
  step_cases c i W; log_simpl; fold (requests c);
    rewrite ?filter_app, ?length_app;
    try rewrite (filter_remove_nth is_mutation _ _ E) in IH;
    cbn in *; lia.
Qed.

(** ** Overlapping refreshes and failures *)

Lemma nth_error_after {A : Type} (l l' : list A) (k : nat) :
  nth_error (l ++ l') (length l + k) = nth_error l' k.
Proof.
  rewrite nth_error_app2 by lia. f_equal. lia.
Qed.

Lemma remove_nth_after {A : Type} (l l' : list A) (k : nat) :
  remove_nth (length l + k) (l ++ l') = l ++ remove_nth k l'.
Proof.
  unfold remove_nth. induction l as [|x l IH]; simpl.
  - reflexivity.
  - simpl in IH. now rewrite IH.
Qed.

(** Settling the [k]-th of the requests sent after those of [l]. *)
Lemma settle_after (t : value) (d : jsstring) (h : list event)
    (l l' : list (request * (response -> prog unit))) (k : nat)
    (rq : request) (w : response -> prog unit) (res : fetch_result) :
  nth_error l' k = Some (rq, w) ->
  step {| tasks := t; newTask := d; pending := l ++ l'; log := h |}
       (Arrive (length l + k) res) =
  sync (resume (Fetch rq w) res)
       {| tasks := t; newTask := d; pending := l ++ remove_nth k l';
          log := h |}.
Proof.
  intro E. rewrite step_Arrive. unfold settle. cbn [pending tasks newTask log].
  now rewrite nth_error_after, E, remove_nth_after.
Qed.

(** X8.  Two refreshes in flight are not ordered by the client.  If their
    responses arrive in the order the requests were sent, the list ends as
    the second response; if the response to the older request arrives
    last, it overwrites the newer list. *)
Theorem last_refresh_to_arrive_wins
    (c : config) (older newer : value) (s1 s2 : Z) :
  let n := length (pending c) in
  let r1 := Response {| status := s1; body := Json older |} in
  let r2 := Response {| status := s2; body := Json newer |} in
  let c2 := sync fetchTasks (sync fetchTasks c) in
  in_flight c2 = in_flight c ++ [GET_tasks; GET_tasks] /\
  tasks (steps c2 [Arrive n r1; Arrive n r2]) = newer /\
  tasks (steps c2 [Arrive (S n) r2; Arrive n r1]) = older /\
  pending (steps c2 [Arrive n r1; Arrive n r2]) = pending c /\
  pending (steps c2 [Arrive (S n) r2; Arrive n r1]) = pending c.
Proof.
  intros n r1 r2 c2. subst n r1 r2 c2.
  change (sync fetchTasks (sync fetchTasks c)) with (steps c [Mount; Mount]).
  unfold steps. cbn [fold_left]. rewrite !Mount_step.
  cbn [pending log tasks newTask]. rewrite <- !app_assoc. cbn [app].
  split.
  { unfold in_flight. cbn [pending]. now rewrite !map_app. }
  set (w := (GET_tasks, continuation fetchTasks)).
  replace (S (length (pending c))) with (length (pending c) + 1) by lia.
  replace (Arrive (length (pending c)))
    with (Arrive (length (pending c) + 0)) by (f_equal; lia).
  rewrite (@settle_after _ _ _ (pending c) [w; w] 0 _ _ _ eq_refl).
  rewrite (@settle_after _ _ _ (pending c) [w; w] 1 _ _ _ eq_refl).
  rewrite !resume_fetchTasks. cbn [body pending tasks newTask log remove_nth
                                   firstn skipn app].
  fold w.
  rewrite !(@settle_after _ _ _ (pending c) [w] 0 _ _ _ eq_refl).
  rewrite !resume_fetchTasks. cbn [body pending tasks newTask log remove_nth
                                   firstn skipn app].
  rewrite !app_nil_r. repeat split.
Qed.

(** X10.  A response whose body is not JSON, in any run: the answer to a
    DELETE is accepted all the same and the refresh follows it; the answer
    to any other request is an unhandled [SyntaxError] and nothing follows
    it.  The list and the draft are untouched either way. *)
Theorem body_that_is_not_json
    (ins : list input) (n : nat) (rq : request)
    (k : response -> prog unit) (r : response) (text : jsstring) :
  let c := steps init ins in
  let c' := step c (Arrive n (Response r)) in
  nth_error (pending c) n = Some (rq, k) ->
  body r = NotJson text ->
  tasks c' = tasks c /\
  newTask c' = newTask c /\
  (method rq = DELETE ->
   requests c' = requests c ++ [GET_tasks] /\
   rejections c' = rejections c) /\
  (method rq <> DELETE ->
   requests c' = requests c /\
   rejections c' = rejections c ++ [SyntaxError]).
Proof.
  intros c c' E B. subst c'.
  pose proof (reachable_well_formed ins) as W. fold c in W.
  assert (Hw : waiter (rq, k))
    by (eapply Forall_forall; [exact W | eapply nth_error_In; exact E]).
  rewrite step_Arrive, (settle_at n (Response r) c E).
  inversion Hw; subst;
    rewrite ?resume_fetchTasks, ?resume_add_rest,
      ?resume_handleToggleTask, ?resume_handleDeleteTask;
    rewrite ?B; log_simpl;
    (split; [reflexivity|]); (split; [reflexivity|]);
    split; intro M; try discriminate M; try (now destruct M);
    split; reflexivity.
Qed.

Lemma body_that_is_not_json_witness :
  let html := {| status := 502; body := NotJson (lit "<html>Bad Gateway</html>") |} in
  let c := steps init [Toggle (VNum 1)] in
  nth_error (pending c) 0 =
    Some (PUT_task (VNum 1), continuation (handleToggleTask (VNum 1))) /\
  body html = NotJson (lit "<html>Bad Gateway</html>") /\
  requests (step c (Arrive 0 (Response html))) = [PUT_task (VNum 1)] /\
  rejections (step c (Arrive 0 (Response html))) = [SyntaxError].
Proof.
  intros html c.
  split; [reflexivity|]. split; [reflexivity|].
  destruct (@body_that_is_not_json [Toggle (VNum 1)] 0 (PUT_task (VNum 1))
              (continuation (handleToggleTask (VNum 1))) html
              (lit "<html>Bad Gateway</html>") eq_refl eq_refl)
    as (_ & _ & _ & H).
  destruct H as [Hr Hj]; [discriminate|]. subst c.
  split; [rewrite Hr | rewrite Hj]; reflexivity.
Defined.

(** X11.  Submitting sends a POST exactly when the draft has a code unit
    that is not white space; the title sent is then the whole draft.  A
    draft of white space only sends nothing. *)
Theorem submit_sends_iff_not_blank (c : config) :
  requests (step c Submit) =
  requests c ++
  (if forallb is_space (newTask c) then [] else [POST_tasks (newTask c)]).
Proof.
  fold (blank (newTask c)).
  destruct (trim (newTask c)) as [|a s] eqn:E.
  - rewrite (Submit_blank c E).
    apply trim_nil_iff_blank in E. rewrite E. now log_simpl.
  - rewrite (not_blank_of_trim _ E).
    rewrite (Submit_not_blank c) by (rewrite E; discriminate).
    now log_simpl.
Qed.

(** ** Acting while an add is in flight *)

(** X12.  Text typed between the submit and the arrival of the answer to
    the POST is lost: the handler clears the field when the answer
    arrives, whatever the field holds by then.  The title that was posted
    is the draft at the time of the submit. *)
Theorem typing_during_add_is_cleared
    (c : config) (text : jsstring) (r : response) (created : value) :
  trim (newTask c) <> [] ->
  body r = Json created ->
  let c' := steps c [Submit; Change text;
                     Arrive (length (pending c)) (Response r)] in
  newTask c' = [] /\
  draft_writes c' = draft_writes c ++ [text; []] /\
  requests c' = requests c ++ [POST_tasks (newTask c); GET_tasks].
Proof.
  intros N B c'. subst c'. unfold steps. cbn [fold_left].
  rewrite (Submit_not_blank c N).
  change (step ?x (Change text)) with (sync (handleChange text) x).
  cbn [sync handleChange setNewTask emit tasks newTask pending log].
  unfold emit. cbn [tasks newTask pending log].
  rewrite step_Arrive, settle_youngest, resume_add_rest, B.
  log_simpl. rewrite <- !app_assoc. repeat split.
Qed.

Lemma typing_during_add_is_cleared_witness :
  let c := steps init [Change (lit "Buy milk")] in
  let r := {| status := 201; body := Json (task 1 "Buy milk" false) |} in
  trim (newTask c) <> [] /\
  body r = Json (task 1 "Buy milk" false) /\
  newTask (steps c [Submit; Change (lit "Walk dog");
                    Arrive 0 (Response r)]) = [].
Proof.
  intros c r.
  assert (N : trim (newTask c) <> []) by discriminate.
  split; [exact N|]. split; [reflexivity|].
  destruct (@typing_during_add_is_cleared c (lit "Walk dog") r
              (task 1 "Buy milk" false) N eq_refl) as (H & _).
  exact H.
Defined.

(** X13.  Nothing guards against a second submit while the first is in
    flight: the draft is cleared only when the answer arrives, so
    submitting twice posts the same title twice. *)
Theorem double_submit_posts_twice (c : config) :
  trim (newTask c) <> [] ->
  let c' := steps c [Submit; Submit] in
  requests c' =
    requests c ++ [POST_tasks (newTask c); POST_tasks (newTask c)] /\
  in_flight c' =
    in_flight c ++ [POST_tasks (newTask c); POST_tasks (newTask c)] /\
  newTask c' = newTask c.
Proof.
  intros N c'. subst c'. unfold steps. cbn [fold_left].
  rewrite (Submit_not_blank c N).
  rewrite Submit_not_blank by (cbn [newTask]; exact N).
  unfold in_flight. log_simpl. rewrite !map_app, <- !app_assoc.
  repeat split.
Qed.

Lemma double_submit_posts_twice_witness :
  let c := steps init [Change (lit "Buy milk")] in
  trim (newTask c) <> [] /\
  requests (steps c [Submit; Submit]) =
    [POST_tasks (lit "Buy milk"); POST_tasks (lit "Buy milk")].
Proof.
  intro c.
  assert (N : trim (newTask c) <> []) by discriminate.
  split; [exact N|].
  destruct (@double_submit_posts_twice c N) as (H & _).
  exact H.
Defined.
